(** * on-call-tool: the incident transformer of [generate-documents.js]

    A shallow embedding of [get_incident_urgency], [get_incident_duration],
    [get_hours_earned], [process_incidents] and [get_incidents], and the
    properties of the hours-earned rule, the output row and the pagination
    loop that the specification states about them. *)

From Stdlib Require Import ZArith QArith Qround List String Ascii Bool Lia.
From ITree Require Import ITree ITreeFacts Events.State Events.StateFacts.
From Paco Require Import paco.
Import ListNotations.
Import ITreeNotations.

Local Open Scope string_scope.
Local Open Scope list_scope.
Local Open Scope Z_scope.

(** ** JavaScript numbers

    Every number the program handles is either an integer-valued double or
    the quotient of one by a constant, consumed at once by [Math.ceil] or
    [toFixed].  Integer-valued numbers are [Z], with [None] for [NaN];
    quotients are exact rationals.  (A double holds every integer of
    magnitude below 2^53 exactly, and epoch milliseconds stay below
    8.64e15.)  The zero that [Math.ceil] gives for a negative fraction
    above -1 is JavaScript's [-0]; it compares, adds and prints through
    [toFixed] as [0], and is [0] here. *)

Definition jsnum := option Z.
Definition jsfrac := option Q.

Definition NaN : jsnum := None.

(** [a / b] for a non-zero literal [b]. *)
Definition num_div (a : jsnum) (b : Z) : jsfrac :=
  match a with
  | Some x => Some (inject_Z x / inject_Z b)%Q
  | None => None
  end.

Definition frac_div (a : jsfrac) (b : Z) : jsfrac :=
  match a with
  | Some x => Some (x / inject_Z b)%Q
  | None => None
  end.

Definition Math_ceil (a : jsfrac) : jsnum :=
  match a with
  | Some x => Some (Qceiling x)
  | None => None
  end.

Definition num_sub (a b : jsnum) : jsnum :=
  match a, b with
  | Some x, Some y => Some (x - y)
  | _, _ => None
  end.

Definition num_add (a b : jsnum) : jsnum :=
  match a, b with
  | Some x, Some y => Some (x + y)
  | _, _ => None
  end.

Definition num_mul (a b : jsnum) : jsnum :=
  match a, b with
  | Some x, Some y => Some (x * y)
  | _, _ => None
  end.

(** [Math.max]: [NaN] as soon as an argument is [NaN]. *)
Definition Math_max (a b : jsnum) : jsnum :=
  match a, b with
  | Some x, Some y => Some (Z.max x y)
  | _, _ => None
  end.

(** Comparisons with a literal: false on [NaN]. *)
Definition num_ge (a : jsnum) (b : Z) : bool :=
  match a with
  | Some x => b <=? x
  | None => false
  end.

Definition num_le (a : jsnum) (b : Z) : bool :=
  match a with
  | Some x => x <=? b
  | None => false
  end.

(** [Array.prototype.includes] on an array of integer literals. *)
Definition includes (l : list Z) (a : jsnum) : bool :=
  match a with
  | Some x => existsb (Z.eqb x) l
  | None => false
  end.

(** ** Decimal rendering *)

Definition digit (n : Z) : ascii := ascii_of_nat (48 + Z.to_nat (n mod 10)).

Fixpoint digits_fuel (fuel : nat) (n : Z) (acc : string) : string :=
  match fuel with
  | O => acc
  | S fuel' =>
      let acc' := String (digit n) acc in
      if n / 10 =? 0 then acc' else digits_fuel fuel' (n / 10) acc'
  end.

(** The decimal digits of a non-negative integer, without leading zeros. *)
Definition decimal (n : Z) : string := digits_fuel (S (Z.to_nat (Z.log2 n))) n "".

(** The last [k] decimal digits of [n], zero-padded. *)
Fixpoint pad (k : nat) (n : Z) (acc : string) : string :=
  match k with
  | O => acc
  | S k' => pad k' (n / 10) (String (digit n) acc)
  end.

(** [x.toFixed(2)]: the integer [n] with [n / 100] nearest to [|x|], the
    larger one on a tie, printed with two decimals after the sign. *)
Definition toFixed2 (a : jsfrac) : string :=
  match a with
  | None => "NaN"
  | Some x =>
      let neg := match Qcompare x 0 with Lt => true | _ => false end in
      let ax := if neg then Qopp x else x in
      let n := Qfloor (ax * inject_Z 100 + (1 # 2))%Q in
      ((if neg then "-" else "") ++ decimal (n / 100) ++ "." ++ pad 2 (n mod 100) "")%string
  end.

(** ** The host: [Date.parse] and [moment]

    [Date.parse] gives epoch milliseconds or [NaN].  Of a [moment] object
    the program reads the local hour of day, the local day of week
    (Sunday is 0) and formatted renderings. *)

Record Moment := {
  hour : jsnum;
  day : jsnum;
  format : string -> string
}.

Class Host := {
  Date_parse : string -> jsnum;
  moment : string -> Moment
}.

(** ** Incidents as the program reads them *)

Record Reference := { summary : string }.

Record ResolveReason := { type : string }.

Record Incident := {
  created_at : string;
  last_status_change_at : string;
  last_status_change_by : Reference;
  service : Reference;
  urgency : string;
  title : string;
  html_url : string;
  resolve_reason : option ResolveReason
}.

(** A value stored in an output row. *)
Inductive cell :=
| Str (s : string)
| Num (n : jsnum)
| Null.

Definition MOMENT_SATURDAY : Z := 6.
Definition MOMENT_SUNDAY : Z := 0.

(** ** The transformer *)

Definition get_incident_urgency (urgency : string) : string :=
  if String.eqb urgency "high" then "critical alarm"
  else if String.eqb urgency "low" then "non-critical alarm"
  else "unknown".

Section Transformer.

Context {host : Host}.

Definition get_incident_duration (start_date end_date : string) : jsnum :=
  Math_ceil
    (frac_div (num_div (num_sub (Date_parse end_date) (Date_parse start_date)) 1000) 60).

Definition get_hours_earned (start_date end_date urgency : string) : jsnum :=
  let hours_earned := Some 0 in
  let start_date_obj := moment start_date in
  let start_hour := hour start_date_obj in
  let duration_hours := Math_ceil (num_div (get_incident_duration start_date end_date) 60) in
  let is_weekend := includes [MOMENT_SATURDAY; MOMENT_SUNDAY] (day start_date_obj) in
  if negb (String.eqb (get_incident_urgency urgency) "critical alarm") then hours_earned
  else if num_ge start_hour 9 && num_le start_hour 17 && negb is_weekend then hours_earned
  else
    let hours_earned := num_add hours_earned (Some 1) in
    let hours_earned :=
      if num_le start_hour 4 || num_ge start_hour 22
      then num_add hours_earned (Some 1) else hours_earned in
    let hours_earned :=
      num_add hours_earned
        (Math_max (Some 0) (num_mul (num_sub duration_hours (Some 1)) (Some 2))) in
    hours_earned.

Definition is_merged (incident : Incident) : bool :=
  match resolve_reason incident with
  | Some r => String.eqb (type r) "merge_resolve_reason"
  | None => false
  end.

(** The array built for one incident that is not merged. *)
Definition processed_incident (incident : Incident) : list cell :=
  let start_date := moment (created_at incident) in
  let end_date := moment (last_status_change_at incident) in
  let resolver := summary (last_status_change_by incident) in
  let resolver :=
    if String.eqb resolver (summary (service incident)) then "Auto-resolved" else resolver in
  [ Str resolver;
    Str (format start_date "YYYY-MM-DD");
    Str (format end_date "YYYY-MM-DD");
    Str (get_incident_urgency (urgency incident));
    Num (get_hours_earned (created_at incident) (last_status_change_at incident)
           (urgency incident));
    Null;
    Str (format start_date "HH:mm:ss");
    Str (format end_date "HH:mm:ss");
    Str (toFixed2
           (num_div
              (get_incident_duration (created_at incident) (last_status_change_at incident))
              60));
    Null; Null; Null; Null; Null;
    Str (summary (service incident));
    Str (title incident);
    Str (html_url incident) ].

(** [forEach] with [push]: rows accumulate at the end of the array. *)
Definition process_incidents (incidents : list Incident) : list (list cell) :=
  fold_left
    (fun processed_incidents incident =>
       if is_merged incident then processed_incidents
       else processed_incidents ++ [processed_incident incident])
    incidents [].

End Transformer.

(** ** A host for ISO-8601 timestamps

    The timestamps of the incident API have the form
    [YYYY-MM-DDTHH:MM:SS] followed by [Z] or a [+HH:MM] / [-HH:MM] offset.
    This host reads exactly those, by the proleptic Gregorian calendar, and
    renders local time at a fixed offset from UTC.  It runs the embedding on
    concrete incidents; the general theorems hold for every host. *)

Module Iso.

Fixpoint number (s : string) (acc : Z) : option Z :=
  match s with
  | EmptyString => Some acc
  | String c rest =>
      let n := Z.of_nat (nat_of_ascii c) in
      if (48 <=? n) && (n <=? 57) then number rest (acc * 10 + (n - 48)) else None
  end.

Definition field (s : string) (pos len : nat) : option Z :=
  let f := substring pos len s in
  if Nat.eqb (String.length f) len then number f 0 else None.

Definition char_at (s : string) (pos : nat) (c : ascii) : bool :=
  match String.get pos s with
  | Some x => Ascii.eqb x c
  | None => false
  end.

(** Days from 1970-01-01 to the civil date [y]-[m]-[d]. *)
Definition days_from_civil (y m d : Z) : Z :=
  let y' := if m <=? 2 then y - 1 else y in
  let era := y' / 400 in
  let yoe := y' - era * 400 in
  let doy := (153 * (if 2 <? m then m - 3 else m + 9) + 2) / 5 + d - 1 in
  let doe := yoe * 365 + yoe / 4 - yoe / 100 + doy in
  era * 146097 + doe - 719468.

(** The civil date (year, month, day) of a day count from 1970-01-01. *)
Definition civil_from_days (z : Z) : Z * Z * Z :=
  let z' := z + 719468 in
  let era := z' / 146097 in
  let doe := z' - era * 146097 in
  let yoe := (doe - doe / 1460 + doe / 36524 - doe / 146096) / 365 in
  let doy := doe - (365 * yoe + yoe / 4 - yoe / 100) in
  let mp := (5 * doy + 2) / 153 in
  let d := doy - (153 * mp + 2) / 5 + 1 in
  let m := if mp <? 10 then mp + 3 else mp - 9 in
  (if m <=? 2 then yoe + era * 400 + 1 else yoe + era * 400, m, d).

(** The offset from UTC, in minutes, written from position 19 on. *)
Definition zone (s : string) : option Z :=
  if String.eqb (substring 19 (String.length s - 19) s) "Z" then Some 0
  else if Nat.eqb (String.length s) 25 && char_at s 22 ":" then
    match field s 20 2, field s 23 2 with
    | Some h, Some m =>
        if char_at s 19 "+" then Some (h * 60 + m)
        else if char_at s 19 "-" then Some (- (h * 60 + m))
        else None
    | _, _ => None
    end
  else None.

Definition parse (s : string) : jsnum :=
  if char_at s 4 "-" && char_at s 7 "-" && char_at s 10 "T"
     && char_at s 13 ":" && char_at s 16 ":"
  then
    match field s 0 4, field s 5 2, field s 8 2,
          field s 11 2, field s 14 2, field s 17 2, zone s with
    | Some y, Some mo, Some d, Some h, Some mi, Some se, Some z =>
        if (1 <=? mo) && (mo <=? 12) && (1 <=? d) && (d <=? 31)
           && (h <=? 23) && (mi <=? 59) && (se <=? 59)
        then Some ((((days_from_civil y mo d * 24 + h) * 60 + mi - z) * 60 + se) * 1000)
        else None
    | _, _, _, _, _, _, _ => None
    end
  else None.

(** The moment of a timestamp, in local time [tz] minutes east of UTC. *)
Definition local (tz : Z) (s : string) : Moment :=
  match parse s with
  | None => {| hour := NaN; day := NaN; format := fun _ => "Invalid date" |}
  | Some ms =>
      let t := ms + tz * 60000 in
      let days := t / 86400000 in
      let secs := (t mod 86400000) / 1000 in
      {| hour := Some (secs / 3600);
         day := Some ((days + 4) mod 7);
         format := fun f =>
           if String.eqb f "YYYY-MM-DD" then
             let '(y, m, d) := civil_from_days days in
             (pad 4 y "" ++ "-" ++ pad 2 m "" ++ "-" ++ pad 2 d "")%string
           else if String.eqb f "HH:mm:ss" then
             (pad 2 (secs / 3600) "" ++ ":" ++ pad 2 (secs / 60 mod 60) ""
                ++ ":" ++ pad 2 (secs mod 60) "")%string
           else f |}
  end.

Definition host (tz : Z) : Host := {| Date_parse := parse; moment := local tz |}.

End Iso.

(** Mountain standard time, seven hours west of UTC. *)
Definition MST : Host := Iso.host (-420).

(** ** The retriever

    One request to the incident API is one event, answered by a page. *)

Record Page := {
  incidents : list Incident;
  more : bool
}.

Record Request := {
  offset : Z;
  limit : Z
}.

Variant pagerDutyE : Type -> Type :=
| Fetch_incidents (api_key since : string) (request : Request) : pagerDutyE Page.

Definition get_incident_page (api_key since : string) (offset limit : Z)
  : itree pagerDutyE Page :=
  ITree.trigger (Fetch_incidents api_key since {| offset := offset; limit := limit |}).

(** One turn of the [while] loop on [(more_pages, page_num, incidents)]. *)
Definition get_incidents_body (api_key start_date : string) (limit : Z)
    (st : bool * Z * list Incident)
  : itree pagerDutyE (bool * Z * list Incident + list Incident) :=
  let '(more_pages, page_num, incidents0) := st in
  if more_pages then
    page <- get_incident_page api_key start_date (page_num * limit) limit ;;
    Ret (inl (more page, page_num + 1, incidents0 ++ incidents page))
  else Ret (inr incidents0).

Definition get_incidents (api_key start_date : string) : itree pagerDutyE (list Incident) :=
  let more_pages := true in
  let page_num := 0 in
  let limit := 50 in
  let incidents := [] in
  ITree.iter (get_incidents_body api_key start_date limit) (more_pages, page_num, incidents).

(** The API as a sequence of responses: the [k]-th request made, whatever
    it asks, receives [responses k]; the requests are logged in order. *)
Definition serve (responses : nat -> Page)
  : pagerDutyE ~> Monads.stateT (list Request) (itree void1) :=
  fun _ e log =>
    match e with
    | Fetch_incidents _ _ request => Ret (log ++ [request], responses (List.length log))
    end.

(** ** Vocabulary of the statements *)

(** The least integer not below [n / d], for positive [d]. *)
Definition ceil_div (n d : Z) : Z := - ((- n) / d).

(** The resolve reason of the incident is present and has the merge type. *)
Definition merge_resolved (incident : Incident) : Prop :=
  exists r, resolve_reason incident = Some r /\ type r = "merge_resolve_reason".

(** Requests and incidents of the pages [from], ..., [from + count - 1]. *)
Definition page_requests (from count : nat) : list Request :=
  List.map (fun k => {| offset := Z.of_nat k * 50; limit := 50 |}) (seq from count).

Definition page_incidents (responses : nat -> Page) (from count : nat) : list Incident :=
  List.concat (List.map (fun k => incidents (responses k)) (seq from count)).

(** ** Sample data *)

Definition incident_of (created resolved by_ svc urg : string)
    (reason : option ResolveReason) : Incident :=
  {| created_at := created; last_status_change_at := resolved;
     last_status_change_by := {| summary := by_ |}; service := {| summary := svc |};
     urgency := urg; title := "Disk full"; html_url := "https://example.pagerduty.com/incidents/P1";
     resolve_reason := reason |}.

Definition sample_incident : Incident :=
  incident_of "2020-01-06T02:00:00-07:00" "2020-01-06T04:30:00-07:00" "Ann" "API" "high" None.

Definition other_incident : Incident :=
  incident_of "2020-01-04T00:00:00-07:00" "2020-01-04T00:40:00-07:00" "API" "API" "high" None.

(** Two full pages, a last page of 12, and pages that are never asked for. *)
Definition three_pages (k : nat) : Page :=
  match k with
  | 0%nat => {| incidents := repeat sample_incident 50; more := true |}
  | 1%nat => {| incidents := repeat other_incident 50; more := true |}
  | 2%nat => {| incidents := repeat sample_incident 12; more := false |}
  | _ => {| incidents := repeat other_incident 50; more := true |}
  end.

(** ** Command line, previous reports and the report path *)

Definition CSV_FOLDER : string := "./output".
Definition DAYS_IN_WEEK : Z := 7.

(** [s.endsWith(suffix)]. *)
Definition endsWith (s suffix : string) : bool :=
  let n := String.length s in
  let m := String.length suffix in
  (m <=? n)%nat && String.eqb (substring (n - m) m s) suffix.

(** [Array.prototype.sort] without a comparator orders strings by their
    code units; on strings the sorted array is unique, so any sorting
    function gives it. *)
Fixpoint insert_sorted (x : string) (l : list string) : list string :=
  match l with
  | [] => [x]
  | y :: l' => if String.leb x y then x :: l else y :: insert_sorted x l'
  end.

Definition sort (l : list string) : list string := fold_right insert_sorted [] l.

(** The regular expression of [validate_args]: a greedy group of any
    characters, then [-incidents], any one character (the dot before [csv]
    is not escaped), then [csv].  Any character is any but a line
    terminator: of the 8-bit characters, line feed and carriage return. *)
Definition line_terminator (c : ascii) : bool :=
  Ascii.eqb c "010" || Ascii.eqb c "013".

(** The rest of [s] after the literal [lit], if [s] starts with it. *)
Fixpoint literal (lit s : string) : option string :=
  match lit with
  | EmptyString => Some s
  | String c lit' =>
      match s with
      | EmptyString => None
      | String x s' => if Ascii.eqb x c then literal lit' s' else None
      end
  end.

Definition any_char (s : string) : option string :=
  match s with
  | EmptyString => None
  | String c s' => if line_terminator c then None else Some s'
  end.

(** [-incidents.csv] matches at the head of [s]. *)
Definition tail_matches (s : string) : bool :=
  match literal "-incidents" s with
  | Some r =>
      match any_char r with
      | Some r' => match literal "csv" r' with Some _ => true | None => false end
      | None => false
      end
  | None => false
  end.

(** A match that starts at the head of [s]: the greedy group takes the
    longest run after which the tail matches, and backs off one character
    at a time.  The result is the group. *)
Fixpoint match_here (s : string) : option string :=
  match s with
  | EmptyString => if tail_matches s then Some EmptyString else None
  | String c rest =>
      if line_terminator c then (if tail_matches s then Some EmptyString else None)
      else
        match match_here rest with
        | Some g => Some (String c g)
        | None => if tail_matches s then Some EmptyString else None
        end
  end.

(** [s.match] with that expression: the leftmost start that matches; the
    result is group 1, [None] when [match] gives [null]. *)
Fixpoint match_incidents_csv (s : string) : option string :=
  match match_here s with
  | Some g => Some g
  | None =>
      match s with
      | EmptyString => None
      | String _ rest => match_incidents_csv rest
      end
  end.

(** [s.replace(pattern, by)] for one-character strings: the first
    occurrence only. *)
Fixpoint replace (pattern by_ : ascii) (s : string) : string :=
  match s with
  | EmptyString => EmptyString
  | String c rest =>
      if Ascii.eqb c pattern then String by_ rest else String c (replace pattern by_ rest)
  end.

(** Calendar arithmetic of the host: the time value of a date after
    [d.setDate(d.getDate() + delta)]. *)
Class Calendar := {
  setDate_relative : Z -> Z -> Z
}.

(** In a zone at a fixed offset from UTC every day has 86400000 ms. *)
Definition fixed_offset_calendar : Calendar :=
  {| setDate_relative := fun t delta => t + delta * 86400000 |}.

(** What [validate_args] does: print the usage and exit, fail on indexing
    the [null] of a failed match, or return the key and the start date (as
    its time value). *)
Inductive validation :=
| Usage
| TypeError
| Validated (api_key : string) (start_date : jsnum).

(** [args] is [process.argv], [dir] the listing of [CSV_FOLDER] and [now]
    the time value of [new Date()]. *)
Definition validate_args {host : Host} {calendar : Calendar}
    (args dir : list string) (now : Z) : validation :=
  if negb (Nat.eqb (List.length args) 3) then Usage
  else
    let previous_files := filter (fun filename => endsWith filename ".csv") dir in
    if (0 <? List.length previous_files)%nat then
      let sorted := sort previous_files in
      let latest_date := last sorted "" in
      match match_incidents_csv latest_date with
      | None => TypeError
      | Some group =>
          let formatted_date := replace "_" " " group in
          Validated (nth 2 args "") (Date_parse formatted_date)
      end
    else
      let week_ago := setDate_relative now (- DAYS_IN_WEEK) in
      Validated (nth 2 args "") (Some week_ago).

(** The path [create_csv] writes to, [now] being [moment()]. *)
Definition create_csv_path (now : Moment) : string :=
  ("./output/" ++ format now "YYYY-MM-DD_HH:mm:ss" ++ "-incidents.csv")%string.

(** ** Vocabulary of the added statements *)

(** [t] returns [r] after exactly [n] silent steps. *)
Inductive returns_in {E : Type -> Type} {R : Type} : nat -> itree E R -> R -> Prop :=
| returns_now t r : observe t = RetF r -> returns_in O t r
| returns_later n t t' r :
    observe t = TauF t' -> returns_in n t' r -> returns_in (S n) t r.

(** [name] is the greatest of the names of [dir] that end in [.csv]. *)
Definition latest_csv (dir : list string) (name : string) : Prop :=
  In name dir /\ endsWith name ".csv" = true
  /\ forall f, In f dir -> endsWith f ".csv" = true -> String.leb f name = true.

Definition no_line_terminator (s : string) : Prop :=
  forall c, In c (list_ascii_of_string s) -> line_terminator c = false.

(** The start of [s] passes the business-hours test of [get_hours_earned]:
    its hour is from 9 to 17 and its day is not a Saturday or a Sunday (a
    day that is [NaN] is not). *)
Definition business_start {host : Host} (s : string) : Prop :=
  exists h, hour (moment s) = Some h /\ 9 <= h <= 17
            /\ day (moment s) <> Some 6 /\ day (moment s) <> Some 0.

(** ** More sample data *)

(** A host that, like Node, also reads [YYYY-MM-DD HH:MM:SS] as local
    time, [tz] minutes east of UTC. *)
Definition parse_local_text (tz : Z) (s : string) : jsnum :=
  match Iso.parse s with
  | Some t => Some t
  | None =>
      if Nat.eqb (String.length s) 19 && Iso.char_at s 10 " " then
        match Iso.parse (substring 0 10 s ++ "T" ++ substring 11 8 s ++ "Z") with
        | Some t => Some (t - tz * 60000)
        | None => NaN
        end
      else NaN
  end.

Definition node_MST : Host :=
  {| Date_parse := parse_local_text (-420); moment := Iso.local (-420) |}.

(** A moment that also renders the stamp of the report name. *)
Definition with_stamp (m : Moment) : Moment :=
  {| hour := hour m;
     day := day m;
     format := fun f =>
       if String.eqb f "YYYY-MM-DD_HH:mm:ss"
       then (format m "YYYY-MM-DD" ++ "_" ++ format m "HH:mm:ss")%string
       else format m f |}.

Definition report_time : Moment := with_stamp (Iso.local (-420) "2020-01-13T09:30:00-07:00").

Definition command_line : list string := ["node"; "generate-documents.js"; "KEY"].

(** * Properties *)

(** ** Rounding up *)

Lemma ceil_div_bounds n d : 0 < d -> d * (ceil_div n d - 1) < n <= d * ceil_div n d.
Proof.
  intros Hd. unfold ceil_div.
  pose proof (Z.div_mod (- n) d) as E.
  pose proof (Z.mod_pos_bound (- n) d Hd) as B.
  nia.
Qed.

Lemma ceil_div_unique n d c : 0 < d -> d * (c - 1) < n <= d * c -> ceil_div n d = c.
Proof.
  intros Hd Hc. pose proof (ceil_div_bounds n d Hd). nia.
Qed.

Lemma Qceiling_ms_to_minutes n :
  Qceiling (inject_Z n / inject_Z 1000 / inject_Z 60) = ceil_div n 60000.
Proof.
  unfold Qceiling, Qfloor, ceil_div. cbn. rewrite !Z.mul_1_r. reflexivity.
Qed.

Lemma Qceiling_minutes_to_hours n : Qceiling (inject_Z n / inject_Z 60) = ceil_div n 60.
Proof.
  unfold Qceiling, Qfloor, ceil_div. cbn. rewrite !Z.mul_1_r. reflexivity.
Qed.

Section TransformerFacts.

Context {host : Host}.

Lemma get_incident_duration_parsed s e ts te :
  Date_parse s = Some ts -> Date_parse e = Some te ->
  get_incident_duration s e = Some (ceil_div (te - ts) 60000).
Proof.
  intros Hs He. unfold get_incident_duration. rewrite Hs, He. cbn -[Qceiling Qdiv inject_Z].
  now rewrite Qceiling_ms_to_minutes.
Qed.

(** The hours of a critical incident, once its start and duration are known. *)
Lemma get_hours_earned_high s e h d m :
  hour (moment s) = Some h -> day (moment s) = Some d ->
  get_incident_duration s e = Some m ->
  get_hours_earned s e "high" =
    Some (if (9 <=? h) && (h <=? 17) && negb ((d =? 6) || (d =? 0)) then 0
          else 1 + (if (h <=? 4) || (22 <=? h) then 1 else 0)
                 + Z.max 0 ((ceil_div m 60 - 1) * 2)).
Proof.
  intros Hh Hd Hm. unfold get_hours_earned. rewrite Hh, Hd, Hm.
  cbn -[Qceiling Qdiv inject_Z Z.max Z.leb Z.eqb Z.mul Z.add].
  rewrite Qceiling_minutes_to_hours, orb_false_r.
  unfold MOMENT_SATURDAY, MOMENT_SUNDAY.
  destruct ((9 <=? h) && (h <=? 17) && negb ((d =? 6) || (d =? 0))); [reflexivity|].
  destruct ((h <=? 4) || (22 <=? h)); cbn -[Z.max Z.mul ceil_div]; f_equal; lia.
Qed.

Lemma get_hours_earned_not_high s e u :
  u <> "high" -> get_hours_earned s e u = Some 0.
Proof.
  intros Hu. unfold get_hours_earned, get_incident_urgency.
  destruct (String.eqb_spec u "high") as [->|_]; [congruence|].
  destruct (String.eqb u "low"); reflexivity.
Qed.

Lemma process_incidents_acc incidents : forall acc,
  fold_left
    (fun processed_incidents incident =>
       if is_merged incident then processed_incidents
       else processed_incidents ++ [processed_incident incident])
    incidents acc
  = acc ++ List.map processed_incident (filter (fun i => negb (is_merged i)) incidents).
Proof.
  induction incidents as [|i rest IH]; intros acc; cbn.
  - now rewrite app_nil_r.
  - rewrite IH. destruct (is_merged i); cbn; [reflexivity|].
    now rewrite <- app_assoc.
Qed.

Lemma process_incidents_filter incidents :
  process_incidents incidents
  = List.map processed_incident (filter (fun i => negb (is_merged i)) incidents).
Proof. unfold process_incidents. now rewrite process_incidents_acc. Qed.

Lemma filter_merged_length (incidents : list Incident) :
  (List.length (filter (fun i => negb (is_merged i)) incidents)
   + List.length (filter is_merged incidents) = List.length incidents)%nat.
Proof.
  induction incidents as [|i rest IH]; cbn; [reflexivity|].
  destruct (is_merged i); cbn; lia.
Qed.

End TransformerFacts.

(** Case analysis on every integer test left in the goal. *)
Ltac decide_tests :=
  repeat match goal with
    | |- context [?a <=? ?b] => destruct (Z.leb_spec a b)
    | |- context [?a =? ?b] => destruct (Z.eqb_spec a b)
    end;
  cbn [andb orb negb].

(** ** The hours-earned rule *)

(** C1: a critical incident of at most 60 minutes earns 0 hours when it
    starts on a weekday at an hour from 9 to 17, 2 hours when it starts at
    hour 4 or earlier or at hour 22 or later on any day, and 1 hour at every
    other start: weekday hours 5 to 8 and 18 to 21, weekend hours 5 to 21. *)
Theorem hours_earned_within_first_hour {host : Host} s e m h d :
  get_incident_duration s e = Some m -> m <= 60 ->
  hour (moment s) = Some h -> day (moment s) = Some d ->
  ((d <> 6 /\ d <> 0) /\ 9 <= h <= 17 -> get_hours_earned s e "high" = Some 0) /\
  (h <= 4 \/ 22 <= h -> get_hours_earned s e "high" = Some 2) /\
  (((d <> 6 /\ d <> 0) /\ (5 <= h <= 8 \/ 18 <= h <= 21))
   \/ ((d = 6 \/ d = 0) /\ 5 <= h <= 21) ->
   get_hours_earned s e "high" = Some 1).
Proof.
  intros Hm Hle Hh Hd.
  rewrite (get_hours_earned_high s e h d m Hh Hd Hm).
  pose proof (ceil_div_bounds m 60 ltac:(lia)) as Hc.
  replace (Z.max 0 ((ceil_div m 60 - 1) * 2)) with 0 by lia.
  repeat split; intros Hcase; decide_tests; solve [reflexivity | lia].
Qed.

Lemma hours_earned_within_first_hour_witness :
  @get_incident_duration MST "2020-01-06T23:00:00-07:00" "2020-01-06T23:40:00-07:00" = Some 40
  /\ @get_hours_earned MST "2020-01-06T23:00:00-07:00" "2020-01-06T23:40:00-07:00" "high"
     = Some 2
  /\ @get_hours_earned MST "2020-01-06T08:15:00-07:00" "2020-01-06T08:55:00-07:00" "high"
     = Some 1
  /\ @get_hours_earned MST "2020-01-06T17:59:59-07:00" "2020-01-06T18:59:59-07:00" "high"
     = Some 0.
Proof.
  split; [reflexivity|]. split; [|split].
  - apply (hours_earned_within_first_hour (host := MST) _ _ 40 23 1);
      [reflexivity | lia | reflexivity | reflexivity | right; lia].
  - apply (hours_earned_within_first_hour (host := MST) _ _ 40 8 1);
      [reflexivity | lia | reflexivity | reflexivity | left; split; lia].
  - apply (hours_earned_within_first_hour (host := MST) _ _ 60 17 1);
      [reflexivity | lia | reflexivity | reflexivity | split; lia].
Defined.

(** C4: an incident whose urgency is not high, so whose urgency label is not
    "critical alarm", earns 0 hours whatever its timestamps are, parseable
    or not, and its row carries 0 in the hours field. *)
Theorem hours_earned_zero_unless_high {host : Host} (incident : Incident) :
  urgency incident <> "high" ->
  get_incident_urgency (urgency incident) <> "critical alarm"
  /\ (forall s e, get_hours_earned s e (urgency incident) = Some 0)
  /\ nth_error (processed_incident incident) 4 = Some (Num (Some 0)).
Proof.
  intros Hu. split; [|split].
  - unfold get_incident_urgency.
    destruct (String.eqb_spec (urgency incident) "high"); [congruence|].
    destruct (String.eqb (urgency incident) "low"); discriminate.
  - intros s e. now apply get_hours_earned_not_high.
  - cbn. now rewrite get_hours_earned_not_high.
Qed.

Lemma hours_earned_zero_unless_high_witness :
  get_incident_urgency "low" <> "critical alarm"
  /\ (forall s e, @get_hours_earned MST s e "low" = Some 0)
  /\ nth_error
       (@processed_incident MST
          (incident_of "2020-01-04T23:00:00-07:00" "2020-01-05T03:00:00-07:00"
             "Ann" "API" "low" None)) 4
     = Some (Num (Some 0)).
Proof.
  apply (hours_earned_zero_unless_high (host := MST)
           (incident_of "2020-01-04T23:00:00-07:00" "2020-01-05T03:00:00-07:00"
              "Ann" "API" "low" None)).
  cbn. discriminate.
Defined.

(** C10: with parseable timestamps the hours earned are a non-negative
    integer, and a critical incident that starts off-hours earns at least
    1 hour, also when it ends before it starts: the duration component is
    [max 0 ...] and takes nothing from the base hour and the late-night
    hour. *)
Theorem hours_earned_nonnegative {host : Host} s e u ts te :
  Date_parse s = Some ts -> Date_parse e = Some te ->
  exists n,
    get_hours_earned s e u = Some n /\ 0 <= n
    /\ (forall h d,
          u = "high" -> hour (moment s) = Some h -> day (moment s) = Some d ->
          d = 6 \/ d = 0 \/ h < 9 \/ 17 < h ->
          1 <= n
          /\ n = 1 + (if (h <=? 4) || (22 <=? h) then 1 else 0)
                 + Z.max 0 ((ceil_div (ceil_div (te - ts) 60000) 60 - 1) * 2)).
Proof.
  intros Hs He.
  pose proof (get_incident_duration_parsed s e ts te Hs He) as Hm.
  destruct (String.eqb_spec u "high") as [->|Hu].
  - unfold get_hours_earned. rewrite Hm.
    cbn -[Qceiling Qdiv inject_Z Z.max Z.leb Z.eqb Z.mul Z.add].
    rewrite Qceiling_minutes_to_hours.
    set (c := ceil_div (ceil_div (te - ts) 60000) 60).
    unfold MOMENT_SATURDAY, MOMENT_SUNDAY.
    destruct (hour (moment s)) as [h0|]; destruct (day (moment s)) as [d0|];
      cbn -[Z.max Z.leb Z.eqb Z.mul Z.add];
      decide_tests; cbn -[Z.max Z.mul Z.add];
      eexists; (split; [reflexivity|]); (split; [lia|]);
      intros h d _ Hh Hd Hoff; try discriminate;
      injection Hh as <-; try injection Hd as <-; try discriminate;
      decide_tests; lia.
  - exists 0. split; [now apply get_hours_earned_not_high|]. split; [lia|].
    intros h d Hhigh. congruence.
Qed.

Lemma hours_earned_nonnegative_witness :
  exists n,
    @get_hours_earned MST "2020-01-04T10:00:00-07:00" "2020-01-04T07:00:00-07:00" "high"
    = Some n /\ 0 <= n /\ 1 <= n.
Proof.
  destruct (hours_earned_nonnegative (host := MST)
              "2020-01-04T10:00:00-07:00" "2020-01-04T07:00:00-07:00" "high"
              1578157200000 1578146400000 eq_refl eq_refl) as [n [Hn [Hpos Hoff]]].
  exists n. split; [assumption|]. split; [assumption|].
  apply (Hoff 10 6 eq_refl eq_refl eq_refl). left. reflexivity.
Defined.

(** ** Duration *)




(** ** Hours past the first *)

Lemma ceil_div_add_hour m : ceil_div (m + 60) 60 = ceil_div m 60 + 1.
Proof.
  pose proof (ceil_div_bounds m 60 ltac:(lia)).
  pose proof (ceil_div_bounds (m + 60) 60 ltac:(lia)).
  lia.
Qed.

(** A critical incident that passes the business-hours test earns 0 hours
    whatever its end timestamp is, readable or not. *)
Lemma get_hours_earned_business {host : Host} s e h d :
  hour (moment s) = Some h -> day (moment s) = Some d ->
  d <> 6 -> d <> 0 -> 9 <= h <= 17 ->
  get_hours_earned s e "high" = Some 0.
Proof.
  intros Hh Hd Hsat Hsun Hrange. unfold get_hours_earned. rewrite Hh, Hd.
  cbn -[Qceiling Qdiv inject_Z Z.max Z.leb Z.eqb Z.mul Z.add get_incident_duration].
  unfold MOMENT_SATURDAY, MOMENT_SUNDAY.
  decide_tests; solve [reflexivity | lia].
Qed.

(** C3, as the code has it: among critical incidents that start off-hours
    (on a weekend, or before hour 9, or after hour 17) at the same start
    hour, one that lasts 60 minutes more than another of at least one hour
    earns exactly 2 hours more, whether or not the two start on the same
    day; a critical incident that starts on a weekday at an hour from 9 to
    17 earns 0 hours whatever its duration.  A critical weekday incident
    that starts at hour 2 and lasts 150 minutes earns 6 hours. *)
Theorem sixty_more_minutes_earn_two_off_hours {host : Host} :
  (forall s1 e1 s2 e2 m h d1 d2,
     hour (moment s1) = Some h -> hour (moment s2) = Some h ->
     day (moment s1) = Some d1 -> day (moment s2) = Some d2 ->
     d1 = 6 \/ d1 = 0 \/ h < 9 \/ 17 < h ->
     d2 = 6 \/ d2 = 0 \/ h < 9 \/ 17 < h ->
     get_incident_duration s1 e1 = Some m -> 60 <= m ->
     get_incident_duration s2 e2 = Some (m + 60) ->
     exists n,
       get_hours_earned s1 e1 "high" = Some n
       /\ get_hours_earned s2 e2 "high" = Some (n + 2))
  /\ (forall s e h d,
        hour (moment s) = Some h -> day (moment s) = Some d ->
        d <> 6 -> d <> 0 -> 9 <= h <= 17 ->
        get_hours_earned s e "high" = Some 0)
  /\ (forall s e d,
        hour (moment s) = Some 2 -> day (moment s) = Some d ->
        d <> 6 -> d <> 0 ->
        get_incident_duration s e = Some 150 ->
        get_hours_earned s e "high" = Some 6).
Proof.
  split; [|split].
  - intros s1 e1 s2 e2 m h d1 d2 Hh1 Hh2 Hd1 Hd2 Hoff1 Hoff2 Hm1 Hm Hm2.
    rewrite (get_hours_earned_high s1 e1 h d1 m Hh1 Hd1 Hm1).
    rewrite (get_hours_earned_high s2 e2 h d2 (m + 60) Hh2 Hd2 Hm2).
    rewrite ceil_div_add_hour.
    pose proof (ceil_div_bounds m 60 ltac:(lia)) as Hc.
    exists (1 + (if (h <=? 4) || (22 <=? h) then 1 else 0)
              + Z.max 0 ((ceil_div m 60 - 1) * 2)).
    split; decide_tests; try lia; f_equal; lia.
  - intros s e h d. apply get_hours_earned_business.
  - intros s e d Hh Hd Hsat Hsun Hm.
    rewrite (get_hours_earned_high s e 2 d 150 Hh Hd Hm).
    decide_tests; try lia. change (ceil_div 150 60) with 3. reflexivity.
Qed.

Lemma sixty_more_minutes_earn_two_off_hours_witness :
  @get_incident_duration MST "2020-01-06T02:00:00-07:00" "2020-01-06T04:30:00-07:00"
  = Some 150
  /\ @get_incident_duration MST "2020-01-04T02:15:00-07:00" "2020-01-04T05:45:00-07:00"
     = Some 210
  /\ @get_hours_earned MST "2020-01-06T02:00:00-07:00" "2020-01-06T04:30:00-07:00" "high"
     = Some 6
  /\ (exists n,
        @get_hours_earned MST "2020-01-06T02:00:00-07:00" "2020-01-06T04:30:00-07:00" "high"
        = Some n
        /\ @get_hours_earned MST "2020-01-04T02:15:00-07:00" "2020-01-04T05:45:00-07:00"
             "high" = Some (n + 2))
  /\ @get_hours_earned MST "2020-01-06T10:00:00-07:00" "2020-01-06T10:20:00-07:00" "high"
     = Some 0.
Proof.
  pose proof (sixty_more_minutes_earn_two_off_hours (host := MST))
    as [Hmore [Hbusiness Hexample]].
  split; [reflexivity|]. split; [reflexivity|]. split; [|split].
  - apply (Hexample _ _ 1); [reflexivity | reflexivity | lia | lia | reflexivity].
  - apply (Hmore _ _ _ _ 150 2 1 6);
      [reflexivity | reflexivity | reflexivity | reflexivity
      | right; right; left; lia | left; reflexivity | reflexivity | lia | reflexivity].
  - apply (Hbusiness _ _ 10 1); [reflexivity | reflexivity | lia | lia | lia].
Defined.

(** C3 as stated fails: a critical incident that starts on a Monday at
    hour 10 earns 0 hours at 60 minutes and 0 hours at 120 minutes. *)
Lemma sixty_more_minutes_earn_nothing_in_business_hours :
  @hour (@moment MST "2020-01-06T10:00:00-07:00") = Some 10
  /\ @day (@moment MST "2020-01-06T10:00:00-07:00") = Some 1
  /\ @get_incident_duration MST "2020-01-06T10:00:00-07:00" "2020-01-06T11:00:00-07:00"
     = Some 60
  /\ @get_incident_duration MST "2020-01-06T10:00:00-07:00" "2020-01-06T12:00:00-07:00"
     = Some 120
  /\ ~ (exists n,
          @get_hours_earned MST "2020-01-06T10:00:00-07:00" "2020-01-06T11:00:00-07:00"
            "high" = Some n
          /\ @get_hours_earned MST "2020-01-06T10:00:00-07:00" "2020-01-06T12:00:00-07:00"
               "high" = Some (n + 2)).
Proof.
  repeat split. intros [n [H1 H2]].
  vm_compute in H1. injection H1 as <-. vm_compute in H2. discriminate.
Qed.

(** C2: the code does not accrue by half-hours.  A critical incident that
    starts off-hours and lasts from 61 to 120 minutes earns the base hour,
    the late-night hour if any, and 2 more hours, the same at 61, at 90 and
    at 120 minutes: the duration is rounded up to whole hours before it is
    doubled, so the first half-hour past the first hour adds 2 hours and
    the second adds none. *)
Theorem half_hour_past_first_hour_earns_two {host : Host} s e h d m :
  hour (moment s) = Some h -> day (moment s) = Some d ->
  d = 6 \/ d = 0 \/ h < 9 \/ 17 < h ->
  get_incident_duration s e = Some m -> 60 < m <= 120 ->
  get_hours_earned s e "high"
  = Some (1 + (if (h <=? 4) || (22 <=? h) then 1 else 0) + 2).
Proof.
  intros Hh Hd Hoff Hm Hrange.
  rewrite (get_hours_earned_high s e h d m Hh Hd Hm).
  rewrite (ceil_div_unique m 60 2) by lia.
  decide_tests; solve [reflexivity | lia].
Qed.

Lemma half_hour_past_first_hour_earns_two_witness :
  @get_incident_duration MST "2020-01-04T10:00:00-07:00" "2020-01-04T11:00:00-07:00"
  = Some 60
  /\ @get_hours_earned MST "2020-01-04T10:00:00-07:00" "2020-01-04T11:00:00-07:00" "high"
     = Some 1
  /\ @get_incident_duration MST "2020-01-04T10:00:00-07:00" "2020-01-04T11:30:00-07:00"
     = Some 90
  /\ @get_hours_earned MST "2020-01-04T10:00:00-07:00" "2020-01-04T11:30:00-07:00" "high"
     = Some 3
  /\ @get_incident_duration MST "2020-01-04T10:00:00-07:00" "2020-01-04T12:00:00-07:00"
     = Some 120
  /\ @get_hours_earned MST "2020-01-04T10:00:00-07:00" "2020-01-04T12:00:00-07:00" "high"
     = Some 3.
Proof.
  split; [reflexivity|]. split; [reflexivity|]. split; [reflexivity|]. split; [|split].
  - apply (half_hour_past_first_hour_earns_two (host := MST) _ _ 10 6 90);
      [reflexivity | reflexivity | left; reflexivity | reflexivity | lia].
  - reflexivity.
  - apply (half_hour_past_first_hour_earns_two (host := MST) _ _ 10 6 120);
      [reflexivity | reflexivity | left; reflexivity | reflexivity | lia].
Defined.

(** ** Rows *)

Lemma is_merged_spec incident : is_merged incident = true <-> merge_resolved incident.
Proof.
  unfold is_merged, merge_resolved. destruct (resolve_reason incident) as [r|].
  - rewrite String.eqb_eq. split.
    + intros H. now exists r.
    + intros [r' [[= <-] H]]. exact H.
  - split; [discriminate|]. intros [r [H _]]. discriminate.
Qed.

(** C5, as the code has it: every row has exactly 17 fields, in the order
    resolver identity, start date, end date, urgency label, hours earned,
    empty reconciliation date, start time, end time, duration-in-hours
    string, five empty reserved fields, service name, incident title,
    incident URL; each row is the row of an incident that is not merged. *)
Theorem row_has_seventeen_fields {host : Host} (incidents : list Incident) :
  Forall
    (fun row =>
       List.length row = 17%nat
       /\ exists incident,
            In incident incidents /\ ~ merge_resolved incident
            /\ exists resolver,
                 (resolver = "Auto-resolved"
                  \/ resolver = summary (last_status_change_by incident))
                 /\ row =
                    [ Str resolver;
                      Str (format (moment (created_at incident)) "YYYY-MM-DD");
                      Str (format (moment (last_status_change_at incident)) "YYYY-MM-DD");
                      Str (get_incident_urgency (urgency incident));
                      Num (get_hours_earned (created_at incident)
                             (last_status_change_at incident) (urgency incident));
                      Null;
                      Str (format (moment (created_at incident)) "HH:mm:ss");
                      Str (format (moment (last_status_change_at incident)) "HH:mm:ss");
                      Str (toFixed2
                             (num_div
                                (get_incident_duration (created_at incident)
                                   (last_status_change_at incident)) 60));
                      Null; Null; Null; Null; Null;
                      Str (summary (service incident));
                      Str (title incident);
                      Str (html_url incident) ])
    (process_incidents incidents).
Proof.
  rewrite process_incidents_filter. apply Forall_forall. intros row Hrow.
  apply in_map_iff in Hrow. destruct Hrow as [incident [<- Hin]].
  apply filter_In in Hin. destruct Hin as [Hin Hmerged].
  split; [reflexivity|]. exists incident. split; [exact Hin|]. split.
  - intros Hm. apply is_merged_spec in Hm. rewrite Hm in Hmerged. discriminate.
  - eexists. split; [|reflexivity].
    destruct (String.eqb _ _); [left|right]; reflexivity.
Qed.

(** C5 as stated fails: the row of an incident has 17 fields, not 16, with
    a fifth empty field at index 13 before the service name at index 14. *)
Lemma row_does_not_have_sixteen_fields :
  exists row,
    @process_incidents MST
      [incident_of "2020-01-04T00:00:00-07:00" "2020-01-04T00:40:00-07:00"
         "API" "API" "high" None] = [row]
    /\ List.length row = 17%nat
    /\ List.length row <> 16%nat
    /\ nth_error row 13 = Some Null
    /\ nth_error row 14 = Some (Str "API").
Proof.
  eexists. split; [vm_compute; reflexivity|].
  repeat split. discriminate.
Qed.

(** C6: an incident whose resolve reason has the merge type gets no row,
    the rows are those of the other incidents in input order, and their
    number is the number of incidents minus the number of merged ones
    (those on which the test [is_merged] of the loop is true). *)
Theorem merged_incidents_emit_no_row {host : Host} (incidents : list Incident) :
  process_incidents incidents
  = List.map processed_incident (filter (fun i => negb (is_merged i)) incidents)
  /\ List.length (process_incidents incidents)
     = (List.length incidents - List.length (filter is_merged incidents))%nat
  /\ (List.length (filter is_merged incidents) <= List.length incidents)%nat
  /\ (forall pre incident post,
        incidents = pre ++ incident :: post -> merge_resolved incident ->
        process_incidents incidents = process_incidents (pre ++ post))
  /\ ((forall incident, In incident incidents -> merge_resolved incident) ->
      process_incidents incidents = [])
  /\ (forall incident, is_merged incident = true <-> merge_resolved incident).
Proof.
  pose proof (filter_merged_length incidents) as Hlen.
  split; [apply process_incidents_filter|].
  split; [|split; [lia|split; [|split; [|apply is_merged_spec]]]].
  - rewrite process_incidents_filter, length_map. lia.
  - intros pre incident post -> Hm. apply is_merged_spec in Hm.
    rewrite !process_incidents_filter, !filter_app. cbn. now rewrite Hm.
  - intros Hall. rewrite process_incidents_filter.
    replace (filter (fun i => negb (is_merged i)) incidents) with (@nil Incident);
      [reflexivity|].
    symmetry. clear Hlen. induction incidents as [|i rest IH]; [reflexivity|].
    cbn. assert (is_merged i = true) as -> by (apply is_merged_spec, Hall; now left).
    cbn. apply IH. intros j Hj. apply Hall. now right.
Qed.

Lemma merged_incidents_emit_no_row_witness :
  let merged :=
    incident_of "2020-01-05T01:00:00-07:00" "2020-01-05T01:20:00-07:00" "Ann" "API" "high"
      (Some {| type := "merge_resolve_reason" |}) in
  let kept :=
    incident_of "2020-01-06T02:00:00-07:00" "2020-01-06T04:30:00-07:00" "Ann" "API" "high"
      None in
  @process_incidents MST [merged; kept; merged] = @process_incidents MST [kept; merged]
  /\ List.length (@process_incidents MST [merged; kept; merged]) = (3 - 2)%nat.
Proof.
  intros merged kept. split.
  - apply (proj1 (proj2 (proj2 (proj2
             (merged_incidents_emit_no_row (host := MST) [merged; kept; merged]))))
             [] merged [kept; merged] eq_refl).
    exists {| type := "merge_resolve_reason" |}. split; reflexivity.
  - apply (proj1 (proj2 (merged_incidents_emit_no_row (host := MST) [merged; kept; merged]))).
Defined.

(** C7, as the code has it: the resolver field of the row of an incident
    that is not merged is "Auto-resolved" when the summary of
    [last_status_change_by] equals the summary of [service], and is that
    summary, unchanged, when it does not; so the field is "Auto-resolved"
    exactly when the two summaries are equal or the resolver summary is
    itself that text. *)
Theorem resolver_is_auto_resolved_or_raw {host : Host} incidents incident :
  In incident incidents -> ~ merge_resolved incident ->
  In (processed_incident incident) (process_incidents incidents)
  /\ (summary (last_status_change_by incident) = summary (service incident) ->
      nth_error (processed_incident incident) 0 = Some (Str "Auto-resolved"))
  /\ (summary (last_status_change_by incident) <> summary (service incident) ->
      nth_error (processed_incident incident) 0
      = Some (Str (summary (last_status_change_by incident))))
  /\ (nth_error (processed_incident incident) 0 = Some (Str "Auto-resolved")
      <-> summary (last_status_change_by incident) = summary (service incident)
          \/ summary (last_status_change_by incident) = "Auto-resolved").
Proof.
  intros Hin Hm. split.
  - rewrite process_incidents_filter. apply in_map, filter_In. split; [exact Hin|].
    destruct (is_merged incident) eqn:E; [|reflexivity].
    exfalso. apply Hm, is_merged_spec, E.
  - cbn.
    destruct (String.eqb_spec (summary (last_status_change_by incident))
                (summary (service incident))) as [Heq|Hneq].
    + repeat split; try congruence. now left.
    + repeat split; try congruence.
      * intros [= H]. now right.
      * intros [H|H]; congruence.
Qed.

Lemma resolver_is_auto_resolved_or_raw_witness :
  let auto :=
    incident_of "2020-01-04T00:00:00-07:00" "2020-01-04T00:40:00-07:00" "API" "API" "high"
      None in
  let manual :=
    incident_of "2020-01-06T02:00:00-07:00" "2020-01-06T04:30:00-07:00" "Ann" "API" "high"
      None in
  nth_error (@processed_incident MST auto) 0 = Some (Str "Auto-resolved")
  /\ nth_error (@processed_incident MST manual) 0 = Some (Str "Ann")
  /\ In (@processed_incident MST manual) (@process_incidents MST [auto; manual]).
Proof.
  intros auto manual.
  assert (forall i, resolve_reason i = None -> ~ merge_resolved i) as Hnone
    by (intros i Hi [r [Hr _]]; congruence).
  pose proof (resolver_is_auto_resolved_or_raw (host := MST) [auto; manual] auto
                (or_introl eq_refl) (Hnone auto eq_refl)) as [_ [Hauto _]].
  pose proof (resolver_is_auto_resolved_or_raw (host := MST) [auto; manual] manual
                (or_intror (or_introl eq_refl)) (Hnone manual eq_refl))
    as [Hin [_ [Hraw _]]].
  split; [apply Hauto; reflexivity|]. split; [apply Hraw; discriminate | exact Hin].
Defined.

(** C7 as stated fails: a resolver whose own summary is "Auto-resolved", on
    a service called "API", gets the resolver field "Auto-resolved" though
    the two summaries differ. *)
Lemma resolver_auto_resolved_with_different_summaries :
  let incident :=
    incident_of "2020-01-06T02:00:00-07:00" "2020-01-06T04:30:00-07:00"
      "Auto-resolved" "API" "high" None in
  ~ merge_resolved incident
  /\ @process_incidents MST [incident] = [@processed_incident MST incident]
  /\ nth_error (@processed_incident MST incident) 0 = Some (Str "Auto-resolved")
  /\ summary (last_status_change_by incident) <> summary (service incident)
  /\ ~ (nth_error (@processed_incident MST incident) 0 = Some (Str "Auto-resolved")
        <-> summary (last_status_change_by incident) = summary (service incident)).
Proof.
  intros incident. split; [|split; [|split; [|split]]].
  - intros [r [Hr _]]. discriminate.
  - reflexivity.
  - reflexivity.
  - discriminate.
  - intros [Hfield _]. specialize (Hfield eq_refl). discriminate.
Qed.

(** ** Pagination *)

Lemma get_incidents_loop (responses : nat -> Page) (key since : string) :
  forall d p acc log,
    List.length log = p ->
    (forall k, (p <= k < p + d)%nat -> more (responses k) = true) ->
    more (responses (p + d)%nat) = false ->
    interp_state (serve responses)
      (ITree.iter (get_incidents_body key since 50) (true, Z.of_nat p, acc)) log
    ≈ Ret (log ++ page_requests p (S d), acc ++ page_incidents responses p (S d)).
Proof.
  induction d as [|d IH]; intros p acc log Hlen Hmore Hlast.
  - rewrite unfold_iter. unfold get_incidents_body at 1, get_incident_page. cbn. rewrite bind_bind.
    rewrite interp_state_bind, interp_state_trigger. cbn. rewrite !bind_ret_l. cbn.
    rewrite Hlen. rewrite Nat.add_0_r in Hlast. rewrite Hlast.
    rewrite interp_state_tau, tau_eutt.
    rewrite unfold_iter. cbn. rewrite bind_ret_l, interp_state_ret.
    unfold page_requests, page_incidents. cbn. rewrite app_nil_r. reflexivity.
  - rewrite unfold_iter. unfold get_incidents_body at 1, get_incident_page. cbn. rewrite bind_bind.
    rewrite interp_state_bind, interp_state_trigger. cbn. rewrite !bind_ret_l. cbn.
    rewrite Hlen. rewrite (Hmore p) by lia.
    rewrite interp_state_tau, tau_eutt.
    replace (Z.of_nat p + 1) with (Z.of_nat (S p)) by lia.
    rewrite (IH (S p)).
    + unfold page_requests, page_incidents.
      rewrite <- !app_assoc. reflexivity.
    + rewrite length_app. cbn. lia.
    + intros k Hk. apply Hmore. lia.
    + replace (S p + d)%nat with (p + S d)%nat by lia. exact Hlast.
Qed.

(** C9: against any sequence of page responses whose first page with a
    false [more] flag is page [n], the retriever returns after exactly
    [n + 1] requests, made in order with offset 50 times the page index and
    limit 50, and returns the incidents of pages 0 to [n] concatenated in
    response order, nothing re-sorted and nothing removed.  Three pages of
    50, 50 and 12 incidents with flags true, true, false give the 112
    incidents of the first page, then the second, then the third. *)
Theorem get_incidents_concatenates_pages (responses : nat -> Page) (key since : string)
    (n : nat) :
  (forall k, (k < n)%nat -> more (responses k) = true) ->
  more (responses n) = false ->
  interp_state (serve responses) (get_incidents key since) []
  ≈ Ret (List.map (fun k => {| offset := Z.of_nat k * 50; limit := 50 |}) (seq 0 (S n)),
         List.concat (List.map (fun k => incidents (responses k)) (seq 0 (S n))))
  /\ (n = 2%nat ->
      List.length (incidents (responses 0%nat)) = 50%nat ->
      List.length (incidents (responses 1%nat)) = 50%nat ->
      List.length (incidents (responses 2%nat)) = 12%nat ->
      interp_state (serve responses) (get_incidents key since) []
      ≈ Ret ([ {| offset := 0; limit := 50 |}; {| offset := 50; limit := 50 |};
               {| offset := 100; limit := 50 |} ],
             incidents (responses 0%nat) ++ incidents (responses 1%nat)
               ++ incidents (responses 2%nat))
      /\ List.length
           (incidents (responses 0%nat) ++ incidents (responses 1%nat)
              ++ incidents (responses 2%nat)) = 112%nat).
Proof.
  intros Hmore Hlast.
  assert (interp_state (serve responses) (get_incidents key since) []
          ≈ Ret (page_requests 0 (S n), page_incidents responses 0 (S n))) as Hrun.
  { unfold get_incidents.
    apply (get_incidents_loop responses key since n 0 [] [] eq_refl).
    - intros k Hk. apply Hmore. lia.
    - exact Hlast. }
  split; [exact Hrun|].
  intros -> H0 H1 H2. split.
  - rewrite Hrun. unfold page_requests, page_incidents. cbn.
    rewrite app_nil_r. reflexivity.
  - rewrite !length_app. lia.
Qed.

Lemma get_incidents_concatenates_pages_witness :
  interp_state (serve three_pages) (get_incidents "key" "2020-01-01") []
  ≈ Ret ([ {| offset := 0; limit := 50 |}; {| offset := 50; limit := 50 |};
           {| offset := 100; limit := 50 |} ],
         repeat sample_incident 50 ++ repeat other_incident 50 ++ repeat sample_incident 12).
Proof.
  apply (get_incidents_concatenates_pages three_pages "key" "2020-01-01" 2).
  - intros [|[|k]] Hk; [reflexivity | reflexivity | lia].
  - reflexivity.
  - reflexivity.
  - reflexivity.
  - reflexivity.
  - reflexivity.
Defined.

(** * Further properties of the transformer *)

Lemma ceil_div_ceil_div n : ceil_div (ceil_div n 60000) 60 = ceil_div n 3600000.
Proof.
  apply eq_sym, ceil_div_unique; [lia|].
  pose proof (ceil_div_bounds n 60000 ltac:(lia)).
  pose proof (ceil_div_bounds (ceil_div n 60000) 60 ltac:(lia)).
  lia.
Qed.

Lemma ceil_div_monotone n n' d : 0 < d -> n <= n' -> ceil_div n d <= ceil_div n' d.
Proof.
  intros Hd Hle.
  pose proof (ceil_div_bounds n d Hd). pose proof (ceil_div_bounds n' d Hd). nia.
Qed.

(** The hours of a critical incident whose timestamps parse, whatever
    [moment] makes of the start. *)
Lemma get_hours_earned_parsed {host : Host} s e ts te :
  Date_parse s = Some ts -> Date_parse e = Some te ->
  get_hours_earned s e "high" =
    Some (if num_ge (hour (moment s)) 9 && num_le (hour (moment s)) 17
             && negb (includes [6; 0] (day (moment s)))
          then 0
          else 1 + (if num_le (hour (moment s)) 4 || num_ge (hour (moment s)) 22
                    then 1 else 0)
                 + 2 * Z.max 0 (ceil_div (te - ts) 3600000 - 1)).
Proof.
  intros Hs He. unfold get_hours_earned.
  rewrite (get_incident_duration_parsed s e ts te Hs He).
  cbn -[Qceiling Qdiv inject_Z Z.max Z.mul Z.add num_ge num_le includes].
  rewrite Qceiling_minutes_to_hours, ceil_div_ceil_div.
  unfold MOMENT_SATURDAY, MOMENT_SUNDAY.
  destruct (num_ge (hour (moment s)) 9 && num_le (hour (moment s)) 17
            && negb (includes [6; 0] (day (moment s)))); [reflexivity|].
  destruct (num_le (hour (moment s)) 4 || num_ge (hour (moment s)) 22);
    cbn -[Z.max Z.mul Z.add]; f_equal; lia.
Qed.







Lemma business_start_spec {host : Host} s :
  num_ge (hour (moment s)) 9 && num_le (hour (moment s)) 17
    && negb (includes [6; 0] (day (moment s))) = true
  <-> business_start s.
Proof.
  unfold business_start.
  destruct (hour (moment s)) as [h|]; destruct (day (moment s)) as [d|]; cbn.
  - rewrite !andb_true_iff, negb_true_iff, !orb_false_iff, !Z.leb_le, !Z.eqb_neq.
    split.
    + intros [[H9 H17] [Hsat [Hsun _]]]. exists h.
      repeat split; try assumption; congruence.
    + intros [h' [[= <-] [Hrange [Hsat Hsun]]]].
      repeat split; try lia; congruence.
  - rewrite andb_true_r, andb_true_iff, !Z.leb_le. split.
    + intros [H9 H17]. exists h. repeat split; try assumption; discriminate.
    + intros [h' [[= <-] [Hrange _]]]. lia.
  - split; [discriminate | intros [h' [Hh' _]]; discriminate].
  - split; [discriminate | intros [h' [Hh' _]]; discriminate].
Qed.

Lemma get_hours_earned_unparsed {host : Host} s e :
  Date_parse s = NaN \/ Date_parse e = NaN ->
  get_hours_earned s e "high" =
    if num_ge (hour (moment s)) 9 && num_le (hour (moment s)) 17
         && negb (includes [6; 0] (day (moment s)))
    then Some 0 else NaN.
Proof.
  intros Hnan. unfold get_hours_earned, get_incident_duration.
  assert (num_sub (Date_parse e) (Date_parse s) = None) as ->.
  { destruct Hnan as [-> | ->]; [destruct (Date_parse e)|]; reflexivity. }
  cbn -[num_ge num_le includes]. unfold MOMENT_SATURDAY, MOMENT_SUNDAY.
  destruct (num_ge (hour (moment s)) 9 && num_le (hour (moment s)) 17
            && negb (includes [6; 0] (day (moment s)))); [reflexivity|].
  destruct (num_le (hour (moment s)) 4 || num_ge (hour (moment s)) 22); reflexivity.
Qed.

(** X4: the hours earned are [NaN] exactly for a critical incident that
    does not pass the business-hours test and has a timestamp that
    [Date.parse] cannot read; every other incident gets a number, also with
    unreadable timestamps. *)
Theorem hours_earned_nan_iff {host : Host} s e u :
  get_hours_earned s e u = NaN
  <-> u = "high" /\ ~ business_start s /\ (Date_parse s = NaN \/ Date_parse e = NaN).
Proof.
  destruct (String.eqb_spec u "high") as [->|Hu].
  2:{ rewrite get_hours_earned_not_high by assumption.
      split; [discriminate | intros [Hhigh _]; congruence]. }
  rewrite <- business_start_spec.
  destruct (Date_parse s) as [ts|] eqn:Hs; [destruct (Date_parse e) as [te|] eqn:He|].
  - rewrite (get_hours_earned_parsed s e ts te Hs He).
    split; [discriminate | intros [_ [_ [H|H]]]; discriminate].
  - rewrite get_hours_earned_unparsed by (right; exact He).
    destruct (_ && _ && _); split; try discriminate; try tauto.
    intros _. split; [reflexivity|]. split; [discriminate | now right].
  - rewrite get_hours_earned_unparsed by (left; exact Hs).
    destruct (_ && _ && _); split; try discriminate; try tauto.
    intros _. split; [reflexivity|]. split; [discriminate | now left].
Qed.

(** X5: a later end never earns less: with the start and the urgency
    fixed, the hours earned do not decrease when the end timestamp moves
    forward. *)
Theorem hours_earned_monotone_in_end {host : Host} s e e' u ts te te' :
  Date_parse s = Some ts -> Date_parse e = Some te -> Date_parse e' = Some te' ->
  te <= te' ->
  exists n n',
    get_hours_earned s e u = Some n /\ get_hours_earned s e' u = Some n' /\ n <= n'.
Proof.
  intros Hs He He' Hle.
  destruct (String.eqb_spec u "high") as [->|Hu].
  - rewrite (get_hours_earned_parsed s e ts te Hs He).
    rewrite (get_hours_earned_parsed s e' ts te' Hs He').
    pose proof (ceil_div_monotone (te - ts) (te' - ts) 3600000 ltac:(lia) ltac:(lia)).
    destruct (_ && _ && _).
    + exists 0, 0. repeat split; lia.
    + eexists. eexists. split; [reflexivity|]. split; [reflexivity|]. lia.
  - exists 0, 0. rewrite !get_hours_earned_not_high by assumption.
    repeat split; lia.
Qed.

Lemma hours_earned_monotone_in_end_witness :
  exists n n',
    @get_hours_earned MST "2020-01-04T10:00:00-07:00" "2020-01-04T10:20:00-07:00" "high"
    = Some n
    /\ @get_hours_earned MST "2020-01-04T10:00:00-07:00" "2020-01-04T13:20:00-07:00" "high"
       = Some n'
    /\ n <= n'.
Proof.
  apply (hours_earned_monotone_in_end (host := MST) _ _ _ "high"
           1578157200000 1578158400000 1578169200000);
    [reflexivity | reflexivity | reflexivity | lia].
Defined.

(** X6: the hours of a critical incident with an off-hours start have a
    fixed parity: an odd number when the start hour is from 5 to 21, an
    even number, at least 2, when it is at most 4 or at least 22.  Such an
    incident never earns exactly 2 hours outside the late-night hours. *)
Theorem hours_earned_parity {host : Host} s e ts te h d :
  Date_parse s = Some ts -> Date_parse e = Some te ->
  hour (moment s) = Some h -> day (moment s) = Some d ->
  d = 6 \/ d = 0 \/ h < 9 \/ 17 < h ->
  exists n,
    get_hours_earned s e "high" = Some n
    /\ (5 <= h <= 21 -> Z.odd n = true)
    /\ (h <= 4 \/ 22 <= h -> Z.even n = true /\ 2 <= n).
Proof.
  intros Hs He Hh Hd Hoff.
  rewrite (get_hours_earned_parsed s e ts te Hs He), Hh, Hd. cbn -[Z.max Z.mul Z.add].
  rewrite orb_false_r.
  set (k := Z.max 0 (ceil_div (te - ts) 3600000 - 1)).
  assert (0 <= k) as Hk by lia.
  decide_tests; try lia; eexists; (split; [reflexivity|]); split; intros Hcase; try lia.
  all: try (replace (1 + 0 + 2 * k) with (1 + 2 * k) by lia;
            rewrite Z.odd_add_mul_2; reflexivity).
  all: split; [|lia].
  all: replace (1 + 1 + 2 * k) with (0 + 2 * (k + 1)) by lia;
       rewrite Z.even_add_mul_2; reflexivity.
Qed.

Lemma hours_earned_parity_witness :
  exists n,
    @get_hours_earned MST "2020-01-06T02:00:00-07:00" "2020-01-06T04:30:00-07:00" "high"
    = Some n
    /\ Z.even n = true /\ 2 <= n.
Proof.
  destruct (hours_earned_parity (host := MST)
              "2020-01-06T02:00:00-07:00" "2020-01-06T04:30:00-07:00"
              1578301200000 1578310200000 2 1 eq_refl eq_refl eq_refl eq_refl)
    as [n [Hn [_ Hlate]]].
  - right. right. left. lia.
  - exists n. split; [exact Hn|]. apply Hlate. left. lia.
Defined.

(** X7: the urgency label is "critical alarm" for the urgency [high] and
    for no other, "non-critical alarm" for [low] and for no other, and
    "unknown" for every other string, a differently cased [High] included;
    a label is never itself an urgency, so labelling a label gives
    "unknown". *)
Theorem urgency_label_cases (u : string) :
  (get_incident_urgency u = "critical alarm" <-> u = "high")
  /\ (get_incident_urgency u = "non-critical alarm" <-> u = "low")
  /\ (get_incident_urgency u = "unknown" <-> u <> "high" /\ u <> "low")
  /\ get_incident_urgency (get_incident_urgency u) = "unknown".
Proof.
  unfold get_incident_urgency.
  destruct (String.eqb_spec u "high") as [->|Hhigh];
    [|destruct (String.eqb_spec u "low") as [->|Hlow]]; cbn.
  - repeat split; try discriminate; try reflexivity.
    intros [H _]. congruence.
  - repeat split; try discriminate; try reflexivity.
    intros [_ H]. congruence.
  - repeat split; try discriminate; try assumption; try reflexivity;
      intros; congruence.
Qed.

(** X8: the transformer works incident by incident: the rows of a
    concatenation are the rows of the first part followed by the rows of
    the second, and no incidents give no rows.  Transforming page after
    page gives the rows of transforming all pages at once. *)
Theorem process_incidents_app {host : Host} (first second : list Incident) :
  process_incidents (first ++ second) = process_incidents first ++ process_incidents second
  /\ process_incidents [] = []
  /\ forall pages : list (list Incident),
       process_incidents (List.concat pages)
       = List.concat (List.map process_incidents pages).
Proof.
  assert (forall a b, process_incidents (a ++ b) = process_incidents a ++ process_incidents b)
    as Happ.
  { intros a b. rewrite !process_incidents_filter, filter_app, map_app. reflexivity. }
  split; [apply Happ|]. split; [reflexivity|].
  induction pages as [|page pages IH]; [reflexivity|].
  cbn [List.concat List.map]. now rewrite Happ, IH.
Qed.

(** X9: a row never names the service as the resolver: the resolver field
    differs from the service field unless the service itself is called
    "Auto-resolved" and resolved the incident. *)
Theorem resolver_is_not_the_service {host : Host} (incident : Incident) :
  nth_error (processed_incident incident) 0
  = nth_error (processed_incident incident) 14
  <-> summary (service incident) = "Auto-resolved"
      /\ summary (last_status_change_by incident) = "Auto-resolved".
Proof.
  cbn.
  destruct (String.eqb_spec (summary (last_status_change_by incident))
              (summary (service incident))) as [Heq|Hneq].
  - rewrite Heq. split.
    + intros [= H]. split; congruence.
    + intros [H _]. rewrite H. reflexivity.
  - split.
    + intros [= H]. congruence.
    + intros [H1 H2]. congruence.
Qed.

(** * Further properties of the retriever *)

Lemma eutt_Ret_returns_in {E R} (t : itree E R) (r : R) :
  t ≈ Ret r -> exists n, returns_in n t r.
Proof.
  intros H. punfold H. unfold eqit_ in H. cbn in H.
  remember (observe t) as ot eqn:Hot. remember (RetF r) as o eqn:Ho.
  revert t Hot. induction H; intros t Hot; try discriminate.
  - inversion Ho; subst. exists O. now constructor.
  - destruct (IHeqitF Ho t1 eq_refl) as [n Hn]. exists (S n).
    econstructor; [symmetry; exact Hot | exact Hn].
Qed.

Lemma returns_in_eq_itree {E R} n :
  forall (t t' : itree E R) r, t ≅ t' -> returns_in n t r -> returns_in n t' r.
Proof.
  induction n as [|n IH]; intros t t' r Heq Hr; inversion Hr; subst.
  - punfold Heq. unfold eqit_ in Heq. rewrite H in Heq.
    inversion Heq; subst; try discriminate. constructor. congruence.
  - punfold Heq. unfold eqit_ in Heq. rewrite H0 in Heq.
    inversion Heq; subst; try discriminate.
    pclearbot. econstructor; [symmetry; eassumption|]. eapply IH; eassumption.
Qed.

Lemma returns_in_Tau {E R} n (t : itree E R) r :
  returns_in n (Tau t) r -> exists m, n = S m /\ returns_in m t r.
Proof.
  intros H. inversion H; subst; cbn in *; try discriminate.
  match goal with Hobs : TauF _ = TauF _ |- _ => inversion Hobs; subst end.
  eexists. split; [reflexivity | assumption].
Qed.

(** One turn of the loop on a page that announces more pages: two silent
    steps, one request logged, the page appended. *)
Lemma get_incidents_turn (responses : nat -> Page) (key since : string) p acc log :
  more (responses (List.length log)) = true ->
  interp_state (serve responses)
    (ITree.iter (get_incidents_body key since 50) (true, p, acc)) log
  ≅ Tau (Tau (interp_state (serve responses)
                (ITree.iter (get_incidents_body key since 50)
                   (true, p + 1, acc ++ incidents (responses (List.length log))))
                (log ++ [{| offset := p * 50; limit := 50 |}]))).
Proof.
  intros Hmore.
  rewrite unfold_iter at 1. unfold get_incidents_body at 1, get_incident_page. cbn.
  rewrite bind_bind.
  rewrite interp_state_bind, interp_state_trigger_eqit. cbn.
  rewrite !bind_bind, !bind_ret_l. rewrite bind_tau. rewrite !bind_ret_l. cbn.
  rewrite Hmore.
  rewrite interp_state_tau. reflexivity.
Qed.

Lemma get_incidents_returns_needs_last_page (responses : nat -> Page) (key since : string) :
  forall n p acc log r,
    returns_in n
      (interp_state (serve responses)
         (ITree.iter (get_incidents_body key since 50) (true, p, acc)) log) r ->
    exists k, more (responses (List.length log + k)%nat) = false.
Proof.
  induction n as [n IH] using (well_founded_induction lt_wf).
  intros p acc log r Hr.
  destruct (more (responses (List.length log))) eqn:Hmore.
  - apply (returns_in_eq_itree _ _ _ _ (get_incidents_turn responses key since p acc log Hmore))
      in Hr.
    apply returns_in_Tau in Hr. destruct Hr as [m [-> Hr]].
    apply returns_in_Tau in Hr. destruct Hr as [m' [-> Hr]].
    destruct (IH m' ltac:(lia) _ _ _ _ Hr) as [k Hk].
    exists (S k). rewrite length_app in Hk. cbn in Hk.
    replace (List.length log + S k)%nat with (List.length log + 1 + k)%nat by lia.
    exact Hk.
  - exists O. now rewrite Nat.add_0_r.
Qed.

Lemma get_incidents_returns_with_last_page (responses : nat -> Page) (key since : string) :
  forall k log acc,
    more (responses (List.length log + k)%nat) = false ->
    exists r,
      interp_state (serve responses)
        (ITree.iter (get_incidents_body key since 50)
           (true, Z.of_nat (List.length log), acc)) log
      ≈ Ret r.
Proof.
  induction k as [|k IH]; intros log acc Hlast.
  - eexists. apply (get_incidents_loop responses key since O (List.length log) acc log eq_refl).
    + intros j Hj. lia.
    + exact Hlast.
  - destruct (more (responses (List.length log))) eqn:Hmore.
    + destruct (IH (log ++ [{| offset := Z.of_nat (List.length log) * 50; limit := 50 |}])
                  (acc ++ incidents (responses (List.length log)))) as [r Hr].
      { rewrite length_app. cbn.
        replace (List.length log + 1 + k)%nat with (List.length log + S k)%nat by lia.
        exact Hlast. }
      exists r.
      rewrite (get_incidents_turn responses key since _ acc log Hmore), !tau_eutt.
      rewrite length_app in Hr. cbn in Hr.
      replace (Z.of_nat (List.length log) + 1) with (Z.of_nat (List.length log + 1)) by lia.
      exact Hr.
    + eexists.
      apply (get_incidents_loop responses key since O (List.length log) acc log eq_refl).
      * intros j Hj. lia.
      * now rewrite Nat.add_0_r.
Qed.

(** X10: against a sequence of page responses the retriever returns if and
    only if some page reports that no more pages remain; while every page
    announces more, it keeps requesting and never returns. *)
Theorem get_incidents_returns_iff (responses : nat -> Page) (key since : string) :
  (exists r, interp_state (serve responses) (get_incidents key since) [] ≈ Ret r)
  <-> exists n, more (responses n) = false.
Proof.
  unfold get_incidents. split.
  - intros [r Hr]. apply eutt_Ret_returns_in in Hr. destruct Hr as [n Hn].
    apply get_incidents_returns_needs_last_page in Hn. exact Hn.
  - intros [n Hn].
    apply (get_incidents_returns_with_last_page responses key since n [] []). exact Hn.
Qed.

(** * Properties of the command line and the report files *)

(** ** Order of strings *)

Lemma string_compare_refl s : String.compare s s = Eq.
Proof.
  induction s as [|a s IH]; cbn; [reflexivity|].
  unfold Ascii.compare. now rewrite N.compare_refl.
Qed.

Lemma string_leb_refl s : String.leb s s = true.
Proof. unfold String.leb. now rewrite string_compare_refl. Qed.

Lemma string_leb_trans : forall s1 s2 s3,
  String.leb s1 s2 = true -> String.leb s2 s3 = true -> String.leb s1 s3 = true.
Proof.
  unfold String.leb.
  induction s1 as [|a s1 IH]; intros [|b s2] [|c s3]; cbn; try easy.
  unfold Ascii.compare.
  destruct (N.compare_spec (N_of_ascii a) (N_of_ascii b));
    destruct (N.compare_spec (N_of_ascii b) (N_of_ascii c));
    destruct (N.compare_spec (N_of_ascii a) (N_of_ascii c));
    try easy; try lia.
  apply IH.
Qed.

(** ** Sorting and the last element *)

Lemma insert_sorted_In x y l : In y (insert_sorted x l) <-> y = x \/ In y l.
Proof.
  induction l as [|z l IH]; cbn.
  - intuition.
  - destruct (String.leb x z); cbn; [intuition|]. rewrite IH. intuition.
Qed.

Lemma sort_In y l : In y (sort l) <-> In y l.
Proof.
  induction l as [|x l IH]; cbn; [reflexivity|].
  rewrite insert_sorted_In, IH. intuition.
Qed.

Lemma last_In (l : list string) d : l <> [] -> In (last l d) l.
Proof.
  induction l as [|x [|y l] IH]; intros Hne; [congruence | now left |].
  right. apply IH. discriminate.
Qed.

Lemma insert_sorted_last x l :
  (forall y, In y l -> String.leb y (last l "") = true) ->
  forall y, In y (insert_sorted x l) -> String.leb y (last (insert_sorted x l) "") = true.
Proof.
  induction l as [|z l IH]; intros Hbound y Hy.
  - cbn in *. destruct Hy as [<-|[]]. apply string_leb_refl.
  - cbn [insert_sorted] in *. destruct (String.leb x z) eqn:Hxz.
    + change (last (x :: z :: l) "") with (last (z :: l) "").
      destruct Hy as [<-|Hy]; [|now apply Hbound].
      apply (string_leb_trans _ z); [exact Hxz | apply Hbound; now left].
    + assert (String.leb z x = true) as Hzx
        by (destruct (String.leb_total x z); congruence).
      assert (insert_sorted x l <> []) as Hne
        by (intros Hnil; assert (In x (insert_sorted x l)) as Hin
              by (apply insert_sorted_In; now left); rewrite Hnil in Hin; exact Hin).
      assert (last (z :: insert_sorted x l) "" = last (insert_sorted x l) "") as ->
        by (destruct (insert_sorted x l); [congruence | reflexivity]).
      assert (forall y, In y (insert_sorted x l) ->
                        String.leb y (last (insert_sorted x l) "") = true) as Hrest.
      { apply IH. intros w Hw. destruct l as [|w' l']; [destruct Hw|].
        change (last (w' :: l') "") with (last (z :: w' :: l') "").
        apply Hbound. now right. }
      destruct Hy as [<-|Hy]; [|now apply Hrest].
      apply (string_leb_trans _ x); [exact Hzx|].
      apply Hrest, insert_sorted_In. now left.
Qed.

Lemma sort_last l : forall y, In y (sort l) -> String.leb y (last (sort l) "") = true.
Proof.
  induction l as [|x l IH]; [intros y []|].
  cbn [sort fold_right]. apply insert_sorted_last. exact IH.
Qed.

(** The last of the sorted names is the greatest name. *)
Lemma sort_latest l m :
  In m l -> (forall x, In x l -> String.leb x m = true) -> last (sort l) "" = m.
Proof.
  intros Hin Hmax.
  assert (sort l <> []) as Hne
    by (intros Hnil; apply sort_In in Hin; rewrite Hnil in Hin; exact Hin).
  apply String.leb_antisym.
  - apply Hmax, sort_In, last_In, Hne.
  - apply sort_last, sort_In, Hin.
Qed.

(** ** Suffixes, the match and the replacement *)

Lemma string_length_app (p s : string) :
  String.length (p ++ s) = (String.length p + String.length s)%nat.
Proof. induction p as [|c p IH]; cbn; [reflexivity | now rewrite IH]. Qed.

Lemma string_app_assoc (a b c : string) : ((a ++ b) ++ c = a ++ b ++ c)%string.
Proof. induction a as [|x a IH]; cbn; [reflexivity | now rewrite IH]. Qed.

Lemma substring_all (s : string) : substring 0 (String.length s) s = s.
Proof. induction s as [|c s IH]; cbn; [reflexivity | now rewrite IH]. Qed.

Lemma substring_prefix (a b : string) : substring 0 (String.length a) (a ++ b) = a.
Proof. induction a as [|c a IH]; cbn; [now destruct b | now rewrite IH]. Qed.

Lemma substring_skip (p s : string) n :
  substring (String.length p) n (p ++ s) = substring 0 n s.
Proof. induction p as [|c p IH]; cbn; [reflexivity | exact IH]. Qed.

Lemma endsWith_app (p suffix : string) : endsWith (p ++ suffix) suffix = true.
Proof.
  unfold endsWith. rewrite string_length_app.
  replace (String.length p + String.length suffix - String.length suffix)%nat
    with (String.length p) by lia.
  rewrite substring_skip, substring_all, String.eqb_refl, andb_true_r.
  apply Nat.leb_le. lia.
Qed.

Lemma literal_app (lit r : string) : literal lit (lit ++ r) = Some r.
Proof.
  induction lit as [|c lit IH]; cbn; [reflexivity|]. now rewrite Ascii.eqb_refl.
Qed.

Lemma literal_inv (lit : string) : forall s r, literal lit s = Some r -> s = (lit ++ r)%string.
Proof.
  induction lit as [|c lit IH]; intros s r H; cbn in *; [congruence|].
  destruct s as [|x s]; [discriminate|].
  destruct (Ascii.eqb_spec x c) as [->|]; [|discriminate].
  now rewrite (IH s r H).
Qed.

Lemma tail_matches_inv s :
  tail_matches s = true -> exists rest, s = ("-incidents" ++ rest)%string.
Proof.
  unfold tail_matches. destruct (literal "-incidents" s) as [r|] eqn:H; [|discriminate].
  intros _. exists r. now apply literal_inv.
Qed.

Lemma match_here_inv : forall s g,
  match_here s = Some g -> exists rest, s = (g ++ rest)%string /\ tail_matches rest = true.
Proof.
  induction s as [|c s IH]; intros g H; cbn [match_here] in H.
  - destruct (tail_matches "") eqn:Ht; [|discriminate].
    injection H as <-. now exists "".
  - assert (forall g', (if tail_matches (String c s) then Some "" else None) = Some g' ->
                       exists rest, String c s = (g' ++ rest)%string
                                    /\ tail_matches rest = true) as Hempty.
    { intros g' Hg'. destruct (tail_matches (String c s)) eqn:Ht; [|discriminate].
      injection Hg' as <-. now exists (String c s). }
    destruct (line_terminator c); [now apply Hempty|].
    destruct (match_here s) as [g0|] eqn:Hs; [|now apply Hempty].
    injection H as <-. destruct (IH g0 eq_refl) as [rest [-> Ht]].
    now exists rest.
Qed.

Lemma match_incidents_csv_inv : forall s g,
  match_incidents_csv s = Some g ->
  exists pre rest, s = (pre ++ g ++ "-incidents" ++ rest)%string.
Proof.
  induction s as [|c s IH]; intros g H; cbn [match_incidents_csv] in H.
  - destruct (match_here "") as [g0|] eqn:Hm; [|discriminate].
    injection H as <-. apply match_here_inv in Hm. destruct Hm as [rest [Hs Ht]].
    apply tail_matches_inv in Ht. destruct Ht as [rest' ->].
    now exists "", rest'.
  - destruct (match_here (String c s)) as [g0|] eqn:Hm.
    + injection H as <-. apply match_here_inv in Hm. destruct Hm as [rest [Hs Ht]].
      apply tail_matches_inv in Ht. destruct Ht as [rest' ->].
      now exists "", rest'.
    + destruct (IH g H) as [pre [rest ->]]. now exists (String c pre), rest.
Qed.

Lemma match_here_stem (stem : string) :
  no_line_terminator stem -> match_here (stem ++ "-incidents.csv") = Some stem.
Proof.
  unfold no_line_terminator.
  induction stem as [|c stem IH]; intros Hstem; [reflexivity|].
  cbn [append match_here]. rewrite (Hstem c) by (now left).
  rewrite IH; [reflexivity|]. intros x Hx. apply Hstem. now right.
Qed.

Lemma match_incidents_csv_stem (stem : string) :
  no_line_terminator stem -> match_incidents_csv (stem ++ "-incidents.csv") = Some stem.
Proof.
  intros Hstem.
  destruct (stem ++ "-incidents.csv")%string eqn:E;
    cbn [match_incidents_csv]; rewrite <- E, match_here_stem by assumption; reflexivity.
Qed.

Lemma replace_first (pattern by_ : ascii) (before after : string) :
  ~ In pattern (list_ascii_of_string before) ->
  replace pattern by_ (before ++ String pattern after) = (before ++ String by_ after)%string.
Proof.
  induction before as [|c before IH]; intros Hfree; cbn.
  - now rewrite Ascii.eqb_refl.
  - destruct (Ascii.eqb_spec c pattern) as [->|_].
    + exfalso. apply Hfree. now left.
    + rewrite IH; [reflexivity|]. intros H. apply Hfree. now right.
Qed.

Lemma latest_csv_last dir name :
  latest_csv dir name ->
  let previous_files := filter (fun filename => endsWith filename ".csv") dir in
  (0 <? List.length previous_files)%nat = true /\ last (sort previous_files) "" = name.
Proof.
  intros [Hin [Hcsv Hmax]] previous_files.
  assert (In name previous_files) as Hprev by (apply filter_In; now split).
  split.
  - apply Nat.ltb_lt. destruct previous_files; [destruct Hprev | cbn; lia].
  - apply sort_latest; [exact Hprev|].
    intros x Hx. apply filter_In in Hx. destruct Hx as [Hx Hxcsv]. now apply Hmax.
Qed.

(** ** [validate_args] *)

Section ValidateArgs.

Context {host : Host} {calendar : Calendar}.

Lemma validate_args_latest args dir now name :
  List.length args = 3%nat -> latest_csv dir name ->
  validate_args args dir now =
    match match_incidents_csv name with
    | None => TypeError
    | Some group => Validated (nth 2 args "") (Date_parse (replace "_" " " group))
    end.
Proof.
  intros Hargs Hlatest. unfold validate_args. rewrite Hargs. cbn [Nat.eqb negb].
  destruct (latest_csv_last dir name Hlatest) as [-> ->]. reflexivity.
Qed.

End ValidateArgs.

(** X11: [validate_args] prints the usage and exits exactly when the
    command line does not have three entries (node, the script and the
    key), whatever the output folder holds. *)
Theorem validate_args_usage_iff {host : Host} {calendar : Calendar}
    (args dir : list string) (now : Z) :
  validate_args args dir now = Usage <-> List.length args <> 3%nat.
Proof.
  unfold validate_args.
  destruct (Nat.eqb_spec (List.length args) 3) as [Heq|Hne]; cbn [negb].
  - split; [|congruence]. destruct (Nat.ltb _ _); [|discriminate].
    destruct (match_incidents_csv _); discriminate.
  - split; [intros _; exact Hne | reflexivity].
Qed.

(** X12: when no name in the output folder ends in [.csv], an empty folder
    included, the start date is the current date set back by 7 days and the
    key is the third entry of the command line. *)
Theorem validate_args_without_previous_report {host : Host} {calendar : Calendar}
    (args dir : list string) (now : Z) :
  List.length args = 3%nat ->
  (forall f, In f dir -> endsWith f ".csv" = false) ->
  validate_args args dir now
  = Validated (nth 2 args "") (Some (setDate_relative now (- 7))).
Proof.
  intros Hargs Hnone. unfold validate_args. rewrite Hargs. cbn [Nat.eqb negb].
  replace (filter (fun filename => endsWith filename ".csv") dir) with (@nil string);
    [reflexivity|].
  symmetry. induction dir as [|f dir IH]; [reflexivity|].
  cbn. rewrite (Hnone f) by (now left). apply IH. intros g Hg. apply Hnone. now right.
Qed.

Lemma validate_args_without_previous_report_witness :
  @validate_args node_MST fixed_offset_calendar command_line
    ["notes.txt"; "report.csv.bak"] 1579000000000
  = Validated "KEY" (Some (1579000000000 - 7 * 86400000)).
Proof.
  apply (validate_args_without_previous_report (host := node_MST)
           (calendar := fixed_offset_calendar)); [reflexivity|].
  intros f [<-|[<-|[]]]; reflexivity.
Defined.

(** X13: of the output folder only the greatest name that ends in [.csv]
    counts: older reports, other files and the order of the listing change
    nothing. *)
Theorem validate_args_reads_latest_report {host : Host} {calendar : Calendar}
    (args dir : list string) (now : Z) (name : string) :
  latest_csv dir name ->
  validate_args args dir now = validate_args args [name] now.
Proof.
  intros Hlatest.
  assert (latest_csv [name] name) as Hone.
  { destruct Hlatest as [_ [Hcsv _]]. split; [now left|]. split; [exact Hcsv|].
    intros f [<-|[]] _. apply string_leb_refl. }
  destruct (Nat.eqb_spec (List.length args) 3) as [Hargs|Hargs].
  - now rewrite !(validate_args_latest args _ now name Hargs).
  - unfold validate_args.
    destruct (Nat.eqb_spec (List.length args) 3); [contradiction | reflexivity].
Qed.

Lemma validate_args_reads_latest_report_witness :
  @validate_args node_MST fixed_offset_calendar command_line
    ["2020-01-13_09:30:00-incidents.csv"; "notes.txt"; "2020-01-06_10:00:00-incidents.csv"]
    1579000000000
  = @validate_args node_MST fixed_offset_calendar command_line
      ["2020-01-13_09:30:00-incidents.csv"] 1579000000000.
Proof.
  apply (validate_args_reads_latest_report (host := node_MST)
           (calendar := fixed_offset_calendar)).
  split; [now left|]. split; [reflexivity|].
  intros f [<-|[<-|[<-|[]]]] Hcsv; try reflexivity. discriminate.
Defined.

(** X14: the next run resumes from the report of the last one.  When the
    greatest [.csv] name of the folder is the file that [create_csv] wrote
    at a moment whose stamp has no line break, the start date is the date
    of that stamp with its first underscore replaced by a space; for a stamp
    of the form date, underscore, time that is the text "date time". *)
Theorem validate_args_resumes_from_created_report {host : Host} {calendar : Calendar}
    (args dir : list string) (now : Z) (written : Moment) (name : string) :
  List.length args = 3%nat ->
  create_csv_path written = (CSV_FOLDER ++ "/" ++ name)%string ->
  latest_csv dir name ->
  no_line_terminator (format written "YYYY-MM-DD_HH:mm:ss") ->
  validate_args args dir now
  = Validated (nth 2 args "")
      (Date_parse (replace "_" " " (format written "YYYY-MM-DD_HH:mm:ss")))
  /\ forall date time,
       format written "YYYY-MM-DD_HH:mm:ss" = (date ++ "_" ++ time)%string ->
       ~ In "_"%char (list_ascii_of_string date) ->
       validate_args args dir now
       = Validated (nth 2 args "") (Date_parse (date ++ " " ++ time)).
Proof.
  intros Hargs Hpath Hlatest Hstamp.
  assert (name = (format written "YYYY-MM-DD_HH:mm:ss" ++ "-incidents.csv")%string) as Hname.
  { unfold create_csv_path, CSV_FOLDER in Hpath. cbn in Hpath. congruence. }
  rewrite (validate_args_latest args dir now name Hargs Hlatest), Hname.
  rewrite (match_incidents_csv_stem _ Hstamp).
  split; [reflexivity|].
  intros date time Hform Hfree. rewrite Hform.
  change (date ++ "_" ++ time)%string with (date ++ String "_" time)%string.
  rewrite (replace_first "_" " " date time Hfree). reflexivity.
Qed.

Lemma validate_args_resumes_from_created_report_witness :
  create_csv_path report_time = "./output/2020-01-13_09:30:00-incidents.csv"
  /\ @validate_args node_MST fixed_offset_calendar command_line
       ["2020-01-06_10:00:00-incidents.csv"; "2020-01-13_09:30:00-incidents.csv"]
       1579000000000
     = Validated "KEY" (Some 1578933000000).
Proof.
  split; [reflexivity|].
  destruct (validate_args_resumes_from_created_report (host := node_MST)
              (calendar := fixed_offset_calendar) command_line
              ["2020-01-06_10:00:00-incidents.csv"; "2020-01-13_09:30:00-incidents.csv"]
              1579000000000 report_time "2020-01-13_09:30:00-incidents.csv")
    as [_ Hresume].
  - reflexivity.
  - reflexivity.
  - split; [right; now left|]. split; [reflexivity|].
    intros f [<-|[<-|[]]] _; reflexivity.
  - intros c Hc. vm_compute in Hc.
    repeat (destruct Hc as [<-|Hc]; [reflexivity|]). destruct Hc.
  - rewrite (Hresume "2020-01-13" "09:30:00"); [reflexivity | reflexivity |].
    intros Hin. cbn in Hin.
    repeat (destruct Hin as [Hin|Hin]; [discriminate|]). destruct Hin.
Defined.

(** X15: a foreign [.csv] file that sorts last stops the tool.  When the
    greatest [.csv] name of the folder does not contain [-incidents], the
    match gives [null] and indexing it throws a TypeError, even though
    older reports are present. *)
Theorem validate_args_throws_on_foreign_csv {host : Host} {calendar : Calendar}
    (args dir : list string) (now : Z) (name : string) :
  List.length args = 3%nat ->
  latest_csv dir name ->
  index 0 "-incidents" name = None ->
  validate_args args dir now = TypeError.
Proof.
  intros Hargs Hlatest Hforeign.
  rewrite (validate_args_latest args dir now name Hargs Hlatest).
  destruct (match_incidents_csv name) as [g|] eqn:Hm; [|reflexivity].
  apply match_incidents_csv_inv in Hm. destruct Hm as [pre [rest Hname]].
  exfalso.
  apply (index_correct3 0 (String.length (pre ++ g)) "-incidents" name Hforeign);
    [discriminate | lia |].
  rewrite Hname, <- string_app_assoc, substring_skip.
  apply (substring_prefix "-incidents" rest).
Qed.

Lemma validate_args_throws_on_foreign_csv_witness :
  @validate_args node_MST fixed_offset_calendar command_line
    ["2020-01-13_09:30:00-incidents.csv"; "summary.csv"] 1579000000000
  = TypeError.
Proof.
  apply (validate_args_throws_on_foreign_csv (host := node_MST)
           (calendar := fixed_offset_calendar) _ _ _ "summary.csv").
  - reflexivity.
  - split; [right; now left|]. split; [reflexivity|].
    intros f [<-|[<-|[]]] _; reflexivity.
  - reflexivity.
Defined.
